(** * Mergington High School activities API: the activity registry

    A shallow embedding of [src/app.py] and the properties of its roster
    operations.  The module-level dict [activities] is the only state of the
    program; every request handler reads it and (for a sign-up) mutates it in
    place.  Handlers are embedded as state-passing functions from the
    registry before the call to the outcome of the call and the registry
    after it. *)

From stdpp Require Import gmap strings list fin_maps.

(** ** Data model *)

(** One value of the [activities] dict: the four keys of each dict literal
    of [app.py], lines 24-77. *)
Record Activity := mkActivity {
  description : string;
  schedule : string;
  max_participants : Z;
  participants : list string
}.

(** The [activities] dict itself, keyed by activity name.  Every record is
    its own dict literal and is referenced from the registry only, so the
    in-place mutation of one record is the replacement of the value stored
    under its key. *)
Abbreviation Registry := (gmap string Activity).

(** [fastapi.HTTPException(status_code=..., detail=...)]. *)
Record HTTPException := mkHTTPException {
  status_code : Z;
  detail : string
}.

(** The JSON object [{"message": ...}] a handler returns. *)
Record Message := mkMessage { message : string }.

(** What a call of a handler ends in: a returned value (HTTP 200) or a
    raised [HTTPException]. *)
Inductive Outcome (A : Type) : Type :=
  | Returned (a : A)
  | Raised (e : HTTPException).
Arguments Returned {A} a.
Arguments Raised {A} e.

(** A handler: registry before the call to outcome and registry after. *)
Definition Handler (A : Type) : Type := Registry → Outcome A * Registry.

(** The record [activity] after [activity["participants"] = ps]; the three
    other keys keep their values. *)
Definition set_participants (ps : list string) (activity : Activity) : Activity :=
  {| description := description activity;
     schedule := schedule activity;
     max_participants := max_participants activity;
     participants := ps |}.

(** ** The seed data ([app.py], lines 23-78) *)

Definition seed_entries : list (string * Activity) :=
  [ ("Chess Club",
     mkActivity "Learn strategies and compete in chess tournaments"
       "Fridays, 3:30 PM - 5:00 PM" 12
       ["michael@mergington.edu"; "daniel@mergington.edu"]);
    ("Programming Class",
     mkActivity "Learn programming fundamentals and build software projects"
       "Tuesdays and Thursdays, 3:30 PM - 4:30 PM" 20
       ["emma@mergington.edu"; "sophia@mergington.edu"]);
    ("Gym Class",
     mkActivity "Physical education and sports activities"
       "Mondays, Wednesdays, Fridays, 2:00 PM - 3:00 PM" 30
       ["john@mergington.edu"; "olivia@mergington.edu"]);
    ("Soccer Team",
     mkActivity "Join the school soccer team for practice and matches"
       "Mondays and Thursdays, 4:00 PM - 6:00 PM" 20
       ["alex@mergington.edu"; "lisa@mergington.edu"]);
    ("Basketball Club",
     mkActivity "Pickup games and skill development for basketball players"
       "Tuesdays and Fridays, 4:15 PM - 6:00 PM" 15
       ["matt@mergington.edu"; "nina@mergington.edu"]);
    ("Art Club",
     mkActivity "Explore drawing, painting, and mixed media"
       "Wednesdays, 3:30 PM - 5:00 PM" 20
       ["ava@mergington.edu"; "lucas@mergington.edu"]);
    ("Drama Club",
     mkActivity "Acting, stagecraft, and school productions"
       "Thursdays, 4:00 PM - 6:00 PM" 25
       ["mia@mergington.edu"; "ethan@mergington.edu"]);
    ("Debate Team",
     mkActivity "Competitive debate and public speaking practice"
       "Mondays, 4:30 PM - 6:00 PM" 18
       ["oliver@mergington.edu"; "charlotte@mergington.edu"]);
    ("Science Club",
     mkActivity "Hands-on experiments, projects, and science fairs"
       "Fridays, 3:30 PM - 4:30 PM" 25
       ["liam@mergington.edu"; "amelia@mergington.edu"]) ].

(** The value of the global [activities] at process start. *)
Definition activities : Registry := list_to_map seed_entries.

(** ** Handlers *)

(** [GET /activities] ([app.py], lines 86-88): [return activities]. *)
Definition get_activities : Handler Registry :=
  λ activities, (Returned activities, activities).

(** [POST /activities/{activity_name}/signup] ([app.py], lines 91-107). *)
Definition signup_for_activity (activity_name email : string) : Handler Message :=
  λ activities,
    (* if activity_name not in activities: raise HTTPException(404, ...) *)
    match activities !! activity_name with
    | None => (Raised (mkHTTPException 404 "Activity not found"), activities)
    | Some activity =>
        (* activity = activities[activity_name] *)
        (* if email in activity["participants"]: raise HTTPException(400, ...) *)
        if decide (email ∈ participants activity)
        then (Raised (mkHTTPException 400 "Student already signed up for this activity"),
              activities)
        else
          (* activity["participants"].append(email) *)
          (Returned (mkMessage ("Signed up " +:+ email +:+ " for " +:+ activity_name)),
           <[activity_name := set_participants (participants activity ++ [email]) activity]>
             activities)
    end.

(** [GET /] ([app.py], lines 81-83): the URL of the redirect. *)
Definition root : Handler string :=
  λ activities, (Returned "/static/index.html", activities).

(** ** Requests and the route table *)

Inductive Method : Type := GET | HEAD | POST | PUT | PATCH | DELETE | OPTIONS.

(** A request: its method, the segments of its URL path (["/activities"]
    is [["activities"]], ["/"] is [[]]) and the value of its query
    parameter [email], when it has one. *)
Record Request := mkRequest {
  method : Method;
  path : list string;
  email_param : option string
}.

(** The functions of [app.py] that carry a route decorator. *)
Inductive Endpoint : Type :=
  | Root
  | GetActivities
  | SignupForActivity (activity_name : string).

(** The function of [app.py] that is called for a method and a path, if
    any: [@app.get("/")], [@app.get("/activities")] and
    [@app.post("/activities/{activity_name}/signup")] (lines 81, 86 and 91),
    where a path parameter stands for one segment that is not empty.  Paths
    under the mount ["/static"] (line 19) are served by [StaticFiles], not
    by a function of [app.py]. *)
Definition route (method : Method) (path : list string) : option Endpoint :=
  match method, path with
  | GET, [] => Some Root
  | GET, [a] => if decide (a = "activities") then Some GetActivities else None
  | POST, [a; activity_name; s] =>
      if decide (a = "activities" ∧ activity_name ≠ "" ∧ s = "signup")
      then Some (SignupForActivity activity_name)
      else None
  | _, _ => None
  end.

(** What a called function hands back to the framework. *)
Inductive Response : Type :=
  | RedirectResponse (url : string)
  | ActivitiesBody (body : Registry)
  | MessageBody (body : Message).

Definition outcome_map {A B} (f : A → B) (o : Outcome A) : Outcome B :=
  match o with
  | Returned a => Returned (f a)
  | Raised e => Raised e
  end.

(** One request served by [app]: the outcome of the function of [app.py]
    that is called, and the registry afterwards.  The outcome is [None] when
    no function of [app.py] is called: no route matches, or the required
    parameter [email] of [signup_for_activity] is missing and the framework
    rejects the request before the call. *)
Definition serve (req : Request) (activities : Registry) :
    option (Outcome Response) * Registry :=
  match route (method req) (path req) with
  | Some Root =>
      let r := root activities in (Some (outcome_map RedirectResponse r.1), r.2)
  | Some GetActivities =>
      let r := get_activities activities in (Some (outcome_map ActivitiesBody r.1), r.2)
  | Some (SignupForActivity activity_name) =>
      match email_param req with
      | Some email =>
          let r := signup_for_activity activity_name email activities in
          (Some (outcome_map MessageBody r.1), r.2)
      | None => (None, activities)
      end
  | None => (None, activities)
  end.

(** The registry after a sequence of requests, served one after the other. *)
Definition run (reqs : list Request) (activities : Registry) : Registry :=
  foldl (λ reg req, (serve req reg).2) activities reqs.

(** The requests of the three operations of the spec, section 6. *)
Definition ListAll : Request := mkRequest GET ["activities"] None.

Definition Join (activity_name email : string) : Request :=
  mkRequest POST ["activities"; activity_name; "signup"] (Some email).

Definition Leave (activity_name email : string) : Request :=
  mkRequest DELETE ["activities"; activity_name; "unregister"] (Some email).

(** ** Predicates of the statements *)

(** No email occurs twice in the roster of any activity. *)
Definition duplicate_free (activities : Registry) : Prop :=
  map_Forall (λ _ activity, NoDup (participants activity)) activities.

(** [s] occurs in [t] as a contiguous piece. *)
Definition references (t s : string) : Prop :=
  ∃ before after, t = before +:+ s +:+ after.

(** The record [activity] with capacity [c]; the roster and the texts are
    kept. *)
Definition set_capacity (c : Z) (activity : Activity) : Activity :=
  {| description := description activity;
     schedule := schedule activity;
     max_participants := c;
     participants := participants activity |}.

(** The registry [activities] with [f name] applied to the capacity of the
    record stored under every [name]. *)
Definition map_capacity (f : string → Z → Z) (activities : Registry) : Registry :=
  map_imap (λ name activity,
    Some (set_capacity (f name (max_participants activity)) activity)) activities.

(** The outcome and registry [r] of a call with [f] applied to the registry. *)
Definition on_registry {A} (f : Registry → Registry) (r : Outcome A * Registry) :
    Outcome A * Registry :=
  (r.1, f r.2).

(** The fields of a record that no handler writes: description, schedule
    and capacity. *)
Definition details (activity : Activity) : string * string * Z :=
  (description activity, schedule activity, max_participants activity).

(** The roster stored under [activity_name], when it is a key. *)
Definition roster (activities : Registry) (activity_name : string) : option (list string) :=
  participants <$> activities !! activity_name.


(** Whether a request was answered with the confirmation of a sign-up. *)
Definition is_confirmation (o : option (Outcome Response)) : bool :=
  match o with
  | Some (Returned (MessageBody _)) => true
  | _ => false
  end.

(** The number of requests of a sequence, served one after the other, that
    are answered with the confirmation of a sign-up. *)
Fixpoint confirmations (reqs : list Request) (activities : Registry) : nat :=
  match reqs with
  | [] => 0
  | req :: reqs =>
      (if is_confirmation (serve req activities).1 then 1 else 0)
      + confirmations reqs (serve req activities).2
  end.

(** The number of roster entries over all activities. *)
Definition headcount (activities : Registry) : nat :=
  map_fold (λ _ activity n, length (participants activity) + n) 0 activities.

(** ** The registry as Python stores it

    The value of the key ["participants"] is a reference to a list object,
    and [signup_for_activity] appends to that object in place.  Below, the
    list objects live in a store, addressed by their position; a new object
    takes the next position.  The inner dicts are never written to by
    [app.py] or by the tests, so they are kept as values that hold the
    address of their list. *)

(** An inner dict: its three plain values and the address of its list. *)
Record ActivityRef := mkActivityRef {
  ref_description : string;
  ref_schedule : string;
  ref_max_participants : Z;
  participants_ref : nat
}.

(** The dict object [activities] and the list objects. *)
Record Store := mkStore {
  store_activities : gmap string ActivityRef;
  store_lists : list (list string)
}.

(** The list object at an address.  Every address Python hands out is that
    of an object; the value at any other address is of no interest. *)
Definition list_at (lists : list (list string)) (address : nat) : list string :=
  default [] (lists !! address).

(** The record an inner dict stands for. *)
Definition load (lists : list (list string)) (r : ActivityRef) : Activity :=
  mkActivity (ref_description r) (ref_schedule r) (ref_max_participants r)
    (list_at lists (participants_ref r)).

(** The registry a store stands for: what [activities] prints as. *)
Definition view (st : Store) : Registry :=
  load (store_lists st) <$> store_activities st.

(** Every inner dict refers to a list object of the store. *)
Definition well_formed (st : Store) : Prop :=
  map_Forall (λ _ r, participants_ref r < length (store_lists st)) (store_activities st).

(** No two activities share their list object. *)
Definition unshared (st : Store) : Prop :=
  ∀ name1 name2 r1 r2,
    store_activities st !! name1 = Some r1 →
    store_activities st !! name2 = Some r2 →
    participants_ref r1 = participants_ref r2 →
    name1 = name2.

(** [signup_for_activity] ([app.py], lines 91-107) on the store:
    [activity["participants"].append(email)] writes to the list object the
    inner dict refers to. *)
Definition signup_for_activity_store (activity_name email : string) (st : Store) :
    Outcome Message * Store :=
  match store_activities st !! activity_name with
  | None => (Raised (mkHTTPException 404 "Activity not found"), st)
  | Some activity =>
      let address := participants_ref activity in
      let ps := list_at (store_lists st) address in
      if decide (email ∈ ps)
      then (Raised (mkHTTPException 400 "Student already signed up for this activity"), st)
      else
        (Returned (mkMessage ("Signed up " +:+ email +:+ " for " +:+ activity_name)),
         mkStore (store_activities st) (<[address := ps ++ [email]]> (store_lists st)))
  end.

(** One request served on the store. *)
Definition serve_store (req : Request) (st : Store) : option (Outcome Response) * Store :=
  match route (method req) (path req) with
  | Some Root => (Some (Returned (RedirectResponse "/static/index.html")), st)
  | Some GetActivities => (Some (Returned (ActivitiesBody (view st))), st)
  | Some (SignupForActivity activity_name) =>
      match email_param req with
      | Some email =>
          let r := signup_for_activity_store activity_name email st in
          (Some (outcome_map MessageBody r.1), r.2)
      | None => (None, st)
      end
  | None => (None, st)
  end.

Definition run_store (reqs : list Request) (st : Store) : Store :=
  foldl (λ st req, (serve_store req st).2) st reqs.

(** The dict comprehension of the fixture [reset_activities]
    ([tests/test_app.py], lines 20-28): for every item of [activities] a new
    inner dict with the same three plain values and a new list object, the
    [.copy()] of the participants.  The result is the new outer dict and the
    list objects after the copies.  The order in which the items are visited
    decides only which address each copy gets. *)
Definition copy_activities (st : Store) : gmap string ActivityRef * list (list string) :=
  map_fold
    (λ name details acc,
       (<[name := mkActivityRef (ref_description details) (ref_schedule details)
                    (ref_max_participants details) (length acc.2)]> acc.1,
        acc.2 ++ [list_at acc.2 (participants_ref details)]))
    (∅, store_lists st) (store_activities st).

(** [dict.clear()] and [dict.update(other)] on the dict object. *)
Definition dict_clear (d : gmap string ActivityRef) : gmap string ActivityRef := ∅.

Definition dict_update (d other : gmap string ActivityRef) : gmap string ActivityRef :=
  other ∪ d.

(** The fixture [reset_activities] ([tests/test_app.py], lines 16-34) around
    a test that sends the requests [test]: the copy, the test at the
    [yield], then [activities.clear()] and
    [activities.update(original_activities)]. *)
Definition reset_activities (test : list Request) (st : Store) : Store :=
  let original_activities := (copy_activities st).1 in
  let copied := mkStore (store_activities st) (copy_activities st).2 in
  let after_test := run_store test copied in
  mkStore (dict_update (dict_clear (store_activities after_test)) original_activities)
    (store_lists after_test).

(** The store after the dict literal of [app.py], lines 23-78: one new list
    object for each entry. *)
Definition store_of_entries (entries : list (string * Activity)) : Store :=
  foldl
    (λ st entry,
       mkStore
         (<[entry.1 := mkActivityRef (description entry.2) (schedule entry.2)
                         (max_participants entry.2) (length (store_lists st))]>
            (store_activities st))
         (store_lists st ++ [participants entry.2]))
    (mkStore ∅ []) entries.

(** ** The handler the tests call for *)

(** The roster [ps] without its first entry equal to [email]; a roster
    that does not hold [email] is returned as it is. *)
Fixpoint remove_entry (email : string) (ps : list string) : list string :=
  match ps with
  | [] => []
  | p :: ps' => if decide (p = email) then ps' else p :: remove_entry email ps'
  end.

(** Modelled from the spec: the handler of
    [DELETE /activities/{activityName}/unregister], the spec's
    [Leave(activityName, email)].  [app.py] defines no such handler; only
    [tests/test_app.py] calls the route.  After section 4.1 and section 6 of
    the spec: it fails with [NotFound] (404, "Activity not found") when
    [activity_name] is not a key, fails with [NotRegistered] (400, "Student
    is not registered for this activity") when [email] is not in
    [participants], and otherwise removes the one matching entry from
    [participants] and returns the confirmation
    "Unregistered {email} from {activityName}". *)
Definition unregister_from_activity (activity_name email : string) : Handler Message :=
  λ activities,
    match activities !! activity_name with
    | None => (Raised (mkHTTPException 404 "Activity not found"), activities)
    | Some activity =>
        if decide (email ∈ participants activity)
        then
          (Returned (mkMessage ("Unregistered " +:+ email +:+ " from " +:+ activity_name)),
           <[activity_name := set_participants (remove_entry email (participants activity)) activity]>
             activities)
        else (Raised (mkHTTPException 400 "Student is not registered for this activity"),
              activities)
    end.

(** ** Worked requests on the seed data *)

Example signup_chess_test :
  (signup_for_activity "Chess Club" "test@mergington.edu" activities).1
  = Returned (mkMessage "Signed up test@mergington.edu for Chess Club").
Proof. vm_compute. reflexivity. Qed.

Example signup_chess_test_roster :
  participants <$>
    (signup_for_activity "Chess Club" "test@mergington.edu" activities).2 !! "Chess Club"
  = Some ["michael@mergington.edu"; "daniel@mergington.edu"; "test@mergington.edu"].
Proof. vm_compute. reflexivity. Qed.

Example signup_chess_michael :
  signup_for_activity "Chess Club" "michael@mergington.edu" activities
  = (Raised (mkHTTPException 400 "Student already signed up for this activity"), activities).
Proof. vm_compute. reflexivity. Qed.

Example signup_nonexistent :
  signup_for_activity "Nonexistent Activity" "test@mergington.edu" activities
  = (Raised (mkHTTPException 404 "Activity not found"), activities).
Proof. vm_compute. reflexivity. Qed.

Example listing_request :
  serve ListAll activities = (Some (Returned (ActivitiesBody activities)), activities).
Proof. reflexivity. Qed.

Example root_request :
  serve (mkRequest GET [] None) activities
  = (Some (Returned (RedirectResponse "/static/index.html")), activities).
Proof. reflexivity. Qed.

Example signup_request :
  (serve (Join "Chess Club" "test@mergington.edu") activities).1
  = Some (Returned (MessageBody (mkMessage "Signed up test@mergington.edu for Chess Club"))).
Proof. vm_compute. reflexivity. Qed.

Example signup_request_without_email :
  serve (mkRequest POST ["activities"; "Chess Club"; "signup"] None) activities
  = (None, activities).
Proof. reflexivity. Qed.

Example unregister_contract_chess :
  participants <$>
    (unregister_from_activity "Chess Club" "michael@mergington.edu" activities).2
      !! "Chess Club"
  = Some ["daniel@mergington.edu"].
Proof. vm_compute. reflexivity. Qed.

(** ** Rosters *)

Section roster.
Implicit Types (email p : string) (ps : list string).

Lemma remove_entry_absent email ps :
  email ∉ ps → remove_entry email ps = ps.
Proof.
  induction ps as [|p ps IH]; [done|].
  intros [Hne Hnotin]%not_elem_of_cons. simpl.
  case_decide; [congruence|]. by rewrite IH.
Qed.

(** The entry that goes is the first match; all others stay in place. *)
Lemma remove_entry_split email ps :
  email ∈ ps →
  ∃ l1 l2, ps = l1 ++ email :: l2 ∧ (email ∉ l1) ∧ remove_entry email ps = l1 ++ l2.
Proof.
  induction ps as [|p ps IH]; [by intros ?%elem_of_nil|].
  intros Hin. simpl. case_decide as Hp.
  - subst p. exists [], ps. split_and!; [done| |done]. apply not_elem_of_nil.
  - apply elem_of_cons in Hin as [->|Hin]; [done|].
    destruct (IH Hin) as (l1 & l2 & -> & Hl1 & ->).
    exists (p :: l1), l2. split_and!; [done| |done].
    apply not_elem_of_cons. split; [congruence|done].
Qed.

Lemma remove_entry_app_fresh email ps :
  email ∉ ps → remove_entry email (ps ++ [email]) = ps.
Proof.
  induction ps as [|p ps IH]; simpl.
  - intros _. by case_decide.
  - intros [Hne Hnotin]%not_elem_of_cons.
    case_decide; [congruence|]. by rewrite IH.
Qed.

Lemma remove_entry_sublist email ps : remove_entry email ps `sublist_of` ps.
Proof.
  induction ps as [|p ps IH]; simpl; [done|].
  case_decide; [by apply sublist_cons|by apply sublist_skip].
Qed.

Lemma remove_entry_NoDup email ps : NoDup ps → NoDup (remove_entry email ps).
Proof. intros Hps. exact (sublist_NoDup _ _ Hps (remove_entry_sublist email ps)). Qed.

Lemma remove_entry_NoDup_gone email ps :
  NoDup ps → email ∉ remove_entry email ps.
Proof.
  induction 1 as [|p ps Hp Hps IH]; simpl; [apply not_elem_of_nil|].
  case_decide; [by subst|].
  apply not_elem_of_cons. split; [congruence|done].
Qed.

Lemma append_NoDup email ps : NoDup ps → email ∉ ps → NoDup (ps ++ [email]).
Proof.
  intros Hps Hnotin. apply NoDup_app. split_and!; [done| |apply NoDup_singleton].
  intros p Hp ->%list_elem_of_singleton. done.
Qed.
End roster.

Lemma set_participants_same activity :
  set_participants (participants activity) activity = activity.
Proof. by destruct activity. Qed.

Lemma references_intro before s after : references (before +:+ s +:+ after) s.
Proof. by exists before, after. Qed.

Lemma string_app_assoc (s1 s2 s3 : string) : (s1 +:+ s2) +:+ s3 = s1 +:+ (s2 +:+ s3).
Proof. induction s1 as [|a s1 IH]; [reflexivity|exact (f_equal (String a) IH)]. Qed.

Lemma string_app_empty_r (s : string) : s +:+ "" = s.
Proof. induction s as [|a s IH]; [reflexivity|exact (f_equal (String a) IH)]. Qed.

(** Case analysis following the branches of a handler: the key lookup, then
    the membership test on the roster. *)
Ltac handler_cases :=
  unfold signup_for_activity, unregister_from_activity, get_activities;
  repeat match goal with
    | H : ?reg !! ?k = _ |- context [?reg !! ?k] => rewrite H
    | |- context [match ?reg !! ?k with _ => _ end] => destruct (reg !! k) eqn:?
    | |- context [decide (?e ∈ ?ps)] => destruct (decide (e ∈ ps))
    end;
  simpl.

Lemma seed_duplicate_free : duplicate_free activities.
Proof. apply (bool_decide_unpack _). by vm_compute. Qed.

(** ** Sign-up: [signup_for_activity] *)

(** C3: for an activity name that is not a key of the registry, the sign-up
    raises the 404 exception with detail "Activity not found", whatever the
    email is, and the registry stays as it was. *)
Theorem signup_unknown_activity_not_found (reg : Registry) (activity_name email : string) :
  reg !! activity_name = None →
  signup_for_activity activity_name email reg
  = (Raised (mkHTTPException 404 "Activity not found"), reg).
Proof. intros Hkey. by handler_cases. Qed.

Lemma signup_unknown_activity_not_found_witness :
  activities !! "nope" = None
  ∧ signup_for_activity "nope" "test@mergington.edu" activities
    = (Raised (mkHTTPException 404 "Activity not found"), activities).
Proof.
  split; [reflexivity|].
  apply (signup_unknown_activity_not_found activities "nope" "test@mergington.edu").
  reflexivity.
Defined.

(** C2: for an activity of the registry and an email already in its roster,
    the sign-up raises the 400 exception with detail "Student already signed
    up for this activity"; and for an email not yet in the roster the first
    of two sign-ups in a row returns and the second raises that exception. *)
Theorem signup_twice_conflict (reg : Registry) (activity_name email : string)
    (activity : Activity) :
  reg !! activity_name = Some activity →
  (email ∈ participants activity →
     signup_for_activity activity_name email reg
     = (Raised (mkHTTPException 400 "Student already signed up for this activity"), reg))
  ∧ (email ∉ participants activity →
     ∃ confirmation reg',
       signup_for_activity activity_name email reg = (Returned confirmation, reg')
       ∧ signup_for_activity activity_name email reg'
         = (Raised (mkHTTPException 400 "Student already signed up for this activity"), reg')).
Proof.
  intros Hkey. split; intros Hroster.
  - by handler_cases.
  - eexists _, _. split; [by handler_cases|].
    unfold signup_for_activity at 1. rewrite lookup_insert_eq. simpl.
    case_decide as Hnew; [done|].
    exfalso. apply Hnew, elem_of_app. right. apply list_elem_of_singleton. done.
Qed.

Lemma signup_twice_conflict_witness :
  let chess :=
    mkActivity "Learn strategies and compete in chess tournaments"
      "Fridays, 3:30 PM - 5:00 PM" 12
      ["michael@mergington.edu"; "daniel@mergington.edu"] in
  activities !! "Chess Club" = Some chess
  ∧ signup_for_activity "Chess Club" "michael@mergington.edu" activities
    = (Raised (mkHTTPException 400 "Student already signed up for this activity"), activities)
  ∧ ∃ confirmation reg',
      signup_for_activity "Chess Club" "test@mergington.edu" activities
      = (Returned confirmation, reg')
      ∧ signup_for_activity "Chess Club" "test@mergington.edu" reg'
        = (Raised (mkHTTPException 400 "Student already signed up for this activity"), reg').
Proof.
  intros chess.
  assert (activities !! "Chess Club" = Some chess) as Hkey by reflexivity.
  split; [exact Hkey|]. split.
  - apply (signup_twice_conflict activities "Chess Club" "michael@mergington.edu" chess Hkey).
    apply (bool_decide_unpack _). vm_compute. exact I.
  - apply (signup_twice_conflict activities "Chess Club" "test@mergington.edu" chess Hkey).
    apply (bool_decide_unpack _). vm_compute. exact I.
Defined.

(** C4: for an activity of the registry and an email not in its roster, the
    sign-up returns; the roster afterwards is the roster before with the
    email added at the end, the other fields of the record are kept, and the
    confirmation is "Signed up {email} for {activity_name}", which holds the
    email and the activity name. *)
Theorem signup_appends_email (reg : Registry) (activity_name email : string)
    (activity : Activity) :
  reg !! activity_name = Some activity →
  email ∉ participants activity →
  let confirmation := "Signed up " +:+ email +:+ " for " +:+ activity_name in
  ∃ reg',
    signup_for_activity activity_name email reg = (Returned (mkMessage confirmation), reg')
    ∧ reg' !! activity_name
      = Some (mkActivity (description activity) (schedule activity)
                (max_participants activity) (participants activity ++ [email]))
    ∧ references confirmation email
    ∧ references confirmation activity_name.
Proof.
  intros Hkey Hfresh confirmation. eexists. split_and!.
  - by handler_cases.
  - by rewrite lookup_insert_eq.
  - apply references_intro.
  - exists ("Signed up " +:+ email +:+ " for "), "".
    unfold confirmation. by rewrite string_app_empty_r, !string_app_assoc.
Qed.

Lemma signup_appends_email_witness :
  ∃ reg',
    signup_for_activity "Chess Club" "test@mergington.edu" activities
    = (Returned (mkMessage "Signed up test@mergington.edu for Chess Club"), reg')
    ∧ reg' !! "Chess Club"
      = Some (mkActivity "Learn strategies and compete in chess tournaments"
                "Fridays, 3:30 PM - 5:00 PM" 12
                ["michael@mergington.edu"; "daniel@mergington.edu"; "test@mergington.edu"])
    ∧ references "Signed up test@mergington.edu for Chess Club" "test@mergington.edu"
    ∧ references "Signed up test@mergington.edu for Chess Club" "Chess Club".
Proof.
  apply (signup_appends_email activities "Chess Club" "test@mergington.edu"
           (mkActivity "Learn strategies and compete in chess tournaments"
              "Fridays, 3:30 PM - 5:00 PM" 12
              ["michael@mergington.edu"; "daniel@mergington.edu"])).
  - reflexivity.
  - apply (bool_decide_unpack _). vm_compute. exact I.
Defined.

(** C10: a sign-up that raises leaves the whole registry as it was; it
    raises either because the activity name is not a key (404) or because
    the email is already in the roster of the activity (400). *)
Theorem signup_failure_leaves_registry (reg reg' : Registry)
    (activity_name email : string) (e : HTTPException) :
  signup_for_activity activity_name email reg = (Raised e, reg') →
  reg' = reg
  ∧ ((reg !! activity_name = None ∧ e = mkHTTPException 404 "Activity not found")
     ∨ (∃ activity, reg !! activity_name = Some activity
          ∧ email ∈ participants activity
          ∧ e = mkHTTPException 400 "Student already signed up for this activity")).
Proof.
  handler_cases; intros [= <- <-] || intros [=]; split; eauto.
Qed.

Lemma signup_failure_leaves_registry_witness :
  let call := signup_for_activity "Chess Club" "michael@mergington.edu" activities in
  call.1 = Raised (mkHTTPException 400 "Student already signed up for this activity")
  ∧ call.2 = activities
  ∧ ((activities !! "Chess Club" = None
      ∧ mkHTTPException 400 "Student already signed up for this activity"
        = mkHTTPException 404 "Activity not found")
     ∨ (∃ activity, activities !! "Chess Club" = Some activity
          ∧ "michael@mergington.edu" ∈ participants activity
          ∧ mkHTTPException 400 "Student already signed up for this activity"
            = mkHTTPException 400 "Student already signed up for this activity")).
Proof.
  intros call. split; [vm_compute; reflexivity|].
  apply (signup_failure_leaves_registry activities call.2 "Chess Club"
           "michael@mergington.edu"
           (mkHTTPException 400 "Student already signed up for this activity")).
  vm_compute. reflexivity.
Defined.

(** C5: the sign-up checks no capacity.  For an activity of the registry and
    an email not in its roster it returns and the roster grows by one,
    whatever [max_participants] is, so that a roster already at or over its
    capacity ends strictly over it; and no handler of [app.py] reads
    [max_participants]: rewriting the capacities of the registry changes
    neither the outcome of [signup_for_activity] or [get_activities] nor
    what they do to the registry. *)
Theorem signup_no_capacity_check (reg : Registry) (activity_name email : string)
    (f : string → Z → Z) :
  (∀ activity,
     reg !! activity_name = Some activity →
     email ∉ participants activity →
     ∃ confirmation reg' activity',
       signup_for_activity activity_name email reg = (Returned confirmation, reg')
       ∧ reg' !! activity_name = Some activity'
       ∧ length (participants activity') = S (length (participants activity))
       ∧ max_participants activity' = max_participants activity
       ∧ (max_participants activity ≤ Z.of_nat (length (participants activity)) →
          max_participants activity' < Z.of_nat (length (participants activity')))%Z)
  ∧ signup_for_activity activity_name email (map_capacity f reg)
    = on_registry (map_capacity f) (signup_for_activity activity_name email reg)
  ∧ get_activities (map_capacity f reg)
    = (Returned (map_capacity f reg), map_capacity f reg).
Proof.
  split_and!; [|  |done].
  - intros activity Hkey Hfresh. eexists _, _, _. split_and!.
    + by handler_cases.
    + by rewrite lookup_insert_eq.
    + simpl. rewrite length_app. simpl. lia.
    + done.
    + simpl. rewrite length_app. simpl. lia.
  - unfold signup_for_activity, on_registry, map_capacity.
    rewrite map_lookup_imap.
    destruct (reg !! activity_name) as [activity|] eqn:Hkey; simpl; [|done].
    case_decide; simpl; [done|].
    f_equal. by rewrite map_imap_insert.
Qed.

Lemma signup_no_capacity_check_witness :
  let full := mkActivity "Two seats" "Never" 2 ["a@mergington.edu"; "b@mergington.edu"] in
  let reg : Registry := {[ "Duo" := full ]} in
  ∃ confirmation reg' activity',
    signup_for_activity "Duo" "c@mergington.edu" reg = (Returned confirmation, reg')
    ∧ reg' !! "Duo" = Some activity'
    ∧ length (participants activity') = 3
    ∧ max_participants activity' = 2%Z
    ∧ (max_participants activity' < Z.of_nat (length (participants activity')))%Z.
Proof.
  intros full reg.
  destruct (signup_no_capacity_check reg "Duo" "c@mergington.edu" (λ _ c, c)) as [Hjoin _].
  destruct (Hjoin full) as (confirmation & reg' & activity' & Hcall & Hkey & Hlen & Hmax & Hover).
  - reflexivity.
  - apply (bool_decide_unpack _). vm_compute. exact I.
  - exists confirmation, reg', activity'. split_and!; [done|done|done|done|].
    apply Hover. simpl. lia.
Defined.

(** ** Listing: [get_activities] *)

(** C6: in every registry state the listing returns (it never raises) the
    registry itself, so every activity name maps to its record as stored,
    with its description, schedule, capacity and roster, and the registry
    after the call is the registry before it. *)
Theorem get_activities_returns_registry (reg : Registry) :
  get_activities reg = (Returned reg, reg)
  ∧ ∀ activity_name activity,
      reg !! activity_name = Some activity →
      ∃ listing,
        (get_activities reg).1 = Returned listing
        ∧ listing !! activity_name
          = Some (mkActivity (description activity) (schedule activity)
                    (max_participants activity) (participants activity)).
Proof.
  split; [done|]. intros activity_name [] Hkey. by exists reg.
Qed.

Example get_activities_seed :
  get_activities activities = (Returned (list_to_map seed_entries), list_to_map seed_entries).
Proof. reflexivity. Qed.

(** ** Requests *)

Lemma route_Join (activity_name : string) :
  activity_name ≠ "" →
  route POST ["activities"; activity_name; "signup"] = Some (SignupForActivity activity_name).
Proof. intros Hname. simpl. case_decide as Hr; [done|]. by destruct Hr. Qed.

Lemma serve_Join (reg : Registry) (activity_name email : string) :
  activity_name ≠ "" →
  serve (Join activity_name email) reg
  = (Some (outcome_map MessageBody (signup_for_activity activity_name email reg).1),
     (signup_for_activity activity_name email reg).2).
Proof. intros Hname. unfold serve, Join. simpl method. simpl path. by rewrite route_Join. Qed.

Lemma serve_ListAll (reg : Registry) :
  serve ListAll reg = (Some (Returned (ActivitiesBody reg)), reg).
Proof. reflexivity. Qed.

(** No route of [app.py] has the method [DELETE]. *)
Lemma route_DELETE (path : list string) : route DELETE path = None.
Proof. reflexivity. Qed.

(** A request either leaves the registry alone or does to it what one call
    of [signup_for_activity] does. *)
Lemma serve_registry (req : Request) (reg : Registry) :
  (serve req reg).2 = reg
  ∨ ∃ activity_name email,
      (serve req reg).2 = (signup_for_activity activity_name email reg).2.
Proof.
  unfold serve. destruct (route (method req) (path req)) as [[| |activity_name]|]; simpl;
    [by left|by left| |by left].
  destruct (email_param req) as [email|]; simpl; [|by left].
  right. by exists activity_name, email.
Qed.

(** ** Unregistering *)

(** C1: [app.py] provides no operation that unregisters.  The request
    [DELETE /activities/{activity_name}/unregister?email=...] matches no
    route, so no function of [app.py] is called and the registry stays as it
    was; on the seed data, after the request for "Chess Club" and
    "michael@mergington.edu", that email is still the first entry of the
    roster.  The spec and [tests/test_app.py] expect the entry to be removed
    and a confirmation to be returned. *)
Theorem leave_request_reaches_no_handler :
  (∀ (reg : Registry) (activity_name email : string),
     route DELETE ["activities"; activity_name; "unregister"] = None
     ∧ serve (Leave activity_name email) reg = (None, reg))
  ∧ participants <$>
      (serve (Leave "Chess Club" "michael@mergington.edu") activities).2 !! "Chess Club"
    = Some ["michael@mergington.edu"; "daniel@mergington.edu"].
Proof. split; [by intros reg activity_name email|reflexivity]. Qed.

(** C7: on the seed data, after the sign-up of
    "integration_test@mergington.edu" for "Programming Class" and the
    unregister request for the same email, the email is still on the roster:
    the roster is the one before the two requests with the email added at
    the end, and not the same set of emails as before.  The spec and
    [test_signup_and_unregister_flow] expect the email to be gone. *)
Theorem signup_then_leave_request_keeps_email :
  let before := ["emma@mergington.edu"; "sophia@mergington.edu"] in
  let email := "integration_test@mergington.edu" in
  participants <$> activities !! "Programming Class" = Some before
  ∧ (email ∉ before)
  ∧ participants <$>
      run [Join "Programming Class" email; Leave "Programming Class" email] activities
        !! "Programming Class"
    = Some (before ++ [email])
  ∧ (list_to_set (before ++ [email]) : gset string) ≠ list_to_set before.
Proof.
  intros before email. split_and!.
  - reflexivity.
  - apply (bool_decide_unpack _). vm_compute. exact I.
  - vm_compute. reflexivity.
  - intros Heq.
    assert (email ∈ (list_to_set before : gset string)) as Hin.
    { rewrite <-Heq. apply elem_of_list_to_set, elem_of_app. right.
      by apply list_elem_of_singleton. }
    apply elem_of_list_to_set in Hin. revert Hin.
    apply (bool_decide_unpack _). vm_compute. exact I.
Qed.

(** ** Frame and invariant *)

(** C8: a sign-up for one activity, whether it returns or raises, leaves the
    record stored under every other activity name as it was (description,
    schedule, capacity and roster); so do the sign-up request and the
    unregister request for that activity. *)
Theorem other_activity_record_unchanged (reg : Registry) (A B email : string)
    (record : Activity) :
  A ≠ B →
  reg !! B = Some record →
  (signup_for_activity A email reg).2 !! B = Some record
  ∧ (serve (Join A email) reg).2 !! B = Some record
  ∧ (serve (Leave A email) reg).2 !! B = Some record.
Proof.
  intros Hdistinct Hkey.
  assert ((signup_for_activity A email reg).2 !! B = Some record) as Hsignup.
  { handler_cases; by rewrite ?lookup_insert_ne. }
  split_and!; [done| |done].
  destruct (decide (A = "")) as [->|Hname].
  - done.
  - by rewrite serve_Join.
Qed.

Lemma other_activity_record_unchanged_witness :
  let art :=
    mkActivity "Explore drawing, painting, and mixed media"
      "Wednesdays, 3:30 PM - 5:00 PM" 20
      ["ava@mergington.edu"; "lucas@mergington.edu"] in
  (signup_for_activity "Chess Club" "integrity_test@mergington.edu" activities).2
    !! "Art Club" = Some art
  ∧ (serve (Join "Chess Club" "integrity_test@mergington.edu") activities).2
      !! "Art Club" = Some art
  ∧ (serve (Leave "Chess Club" "integrity_test@mergington.edu") activities).2
      !! "Art Club" = Some art.
Proof.
  intros art.
  apply (other_activity_record_unchanged activities "Chess Club" "Art Club"
           "integrity_test@mergington.edu" art).
  - apply (bool_decide_unpack _). vm_compute. exact I.
  - reflexivity.
Defined.

(** A sign-up keeps every roster free of duplicates. *)
Lemma signup_duplicate_free (reg : Registry) (activity_name email : string) :
  duplicate_free reg → duplicate_free (signup_for_activity activity_name email reg).2.
Proof.
  intros Hinv. unfold signup_for_activity.
  destruct (reg !! activity_name) as [activity|] eqn:Hkey; [|done].
  case_decide as Hin; [done|]. simpl.
  apply map_Forall_insert_2; [|done]. simpl.
  apply append_NoDup; [|done]. exact (Hinv _ _ Hkey).
Qed.

Lemma serve_duplicate_free (reg : Registry) (req : Request) :
  duplicate_free reg → duplicate_free (serve req reg).2.
Proof.
  intros Hinv.
  destruct (serve_registry req reg) as [->|(activity_name & email & ->)]; [done|].
  by apply signup_duplicate_free.
Qed.

(** C9: if no roster of the starting registry holds an email twice, as in
    the seed data, then after any sequence of requests, among them the
    listing, sign-up and unregister requests, no roster holds an email
    twice. *)
Theorem duplicate_free_invariant (reg : Registry) (reqs : list Request) :
  duplicate_free reg → duplicate_free (run reqs reg).
Proof.
  unfold run. revert reg.
  induction reqs as [|req reqs IH]; intros reg Hinv; simpl; [done|].
  by apply IH, serve_duplicate_free.
Qed.

Lemma duplicate_free_invariant_witness :
  duplicate_free activities
  ∧ duplicate_free
      (run [Join "Chess Club" "test@mergington.edu";
            Join "Chess Club" "test@mergington.edu";
            ListAll;
            Join "Chess Club" "michael@mergington.edu";
            Leave "Chess Club" "michael@mergington.edu";
            Join "Gym Class" "test@mergington.edu"] activities).
Proof.
  assert (duplicate_free activities) as Hseed.
  { apply (bool_decide_unpack _). vm_compute. exact I. }
  split; [exact Hseed|].
  apply (duplicate_free_invariant activities). exact Hseed.
Defined.

(** ** The contract of the handler the tests call for

    What [unregister_from_activity], written after the spec, would do; none
    of this is a statement about [app.py]. *)

Section unregister_contract.
Context (reg : Registry) (activity_name email : string).

Lemma unregister_unknown_activity :
  reg !! activity_name = None →
  unregister_from_activity activity_name email reg
  = (Raised (mkHTTPException 404 "Activity not found"), reg).
Proof. intros Hkey. by handler_cases. Qed.

Lemma unregister_not_registered (activity : Activity) :
  reg !! activity_name = Some activity →
  email ∉ participants activity →
  unregister_from_activity activity_name email reg
  = (Raised (mkHTTPException 400 "Student is not registered for this activity"), reg).
Proof. intros Hkey Hroster. by handler_cases. Qed.

(** Exactly one entry equal to [email] goes; the others stay in place. *)
Lemma unregister_removes_one_entry (activity : Activity) :
  reg !! activity_name = Some activity →
  email ∈ participants activity →
  ∃ before after reg',
    participants activity = before ++ email :: after
    ∧ (email ∉ before)
    ∧ unregister_from_activity activity_name email reg
      = (Returned (mkMessage ("Unregistered " +:+ email +:+ " from " +:+ activity_name)),
         reg')
    ∧ reg' !! activity_name
      = Some (mkActivity (description activity) (schedule activity)
                (max_participants activity) (before ++ after))
    ∧ (NoDup (participants activity) → email ∉ before ++ after).
Proof.
  intros Hkey Hroster.
  destruct (remove_entry_split email (participants activity) Hroster)
    as (before & after & Hsplit & Hbefore & Hremoved).
  exists before, after. eexists. split_and!; [done|done| | |].
  - by handler_cases.
  - rewrite lookup_insert_eq, Hremoved. done.
  - intros Hnodup. rewrite <-Hremoved. by apply remove_entry_NoDup_gone.
Qed.

(** A sign-up followed by the unregistration of the same email gives the
    registry back. *)
Lemma signup_then_unregister_restores (activity : Activity) :
  reg !! activity_name = Some activity →
  email ∉ participants activity →
  unregister_from_activity activity_name email
    (signup_for_activity activity_name email reg).2
  = (Returned (mkMessage ("Unregistered " +:+ email +:+ " from " +:+ activity_name)), reg).
Proof.
  intros Hkey Hfresh. unfold signup_for_activity. rewrite Hkey.
  case_decide; [done|]. simpl.
  unfold unregister_from_activity. rewrite lookup_insert_eq. simpl.
  case_decide as Hin.
  - rewrite remove_entry_app_fresh by done. f_equal.
    rewrite insert_insert_eq. apply insert_id.
    rewrite Hkey. f_equal. by destruct activity.
  - exfalso. apply Hin, elem_of_app. right. by apply list_elem_of_singleton.
Qed.

Lemma unregister_other_activity_unchanged (B : string) :
  activity_name ≠ B →
  (unregister_from_activity activity_name email reg).2 !! B = reg !! B.
Proof. intros Hdistinct. handler_cases; by rewrite ?lookup_insert_ne. Qed.

Lemma unregister_duplicate_free :
  duplicate_free reg →
  duplicate_free (unregister_from_activity activity_name email reg).2.
Proof.
  intros Hinv. unfold unregister_from_activity.
  destruct (reg !! activity_name) as [activity|] eqn:Hkey; [|done].
  case_decide as Hin; [|done]. simpl.
  apply map_Forall_insert_2; [|done]. simpl.
  apply remove_entry_NoDup. exact (Hinv _ _ Hkey).
Qed.

(** The capacity is not consulted on the way out either. *)
Lemma unregister_ignores_capacity (f : string → Z → Z) :
  unregister_from_activity activity_name email (map_capacity f reg)
  = on_registry (map_capacity f) (unregister_from_activity activity_name email reg).
Proof.
  unfold unregister_from_activity, on_registry, map_capacity.
  rewrite map_lookup_imap.
  destruct (reg !! activity_name) as [activity|] eqn:Hkey; simpl; [|done].
  case_decide; simpl; [|done].
  f_equal. by rewrite map_imap_insert.
Qed.
End unregister_contract.

(** ** What the handlers of [app.py] keep and what they never do *)

(** A sign-up either leaves the registry alone or replaces one record by
    itself with the email added at the end of its roster. *)
Lemma signup_registry_cases (reg : Registry) (activity_name email : string) :
  (signup_for_activity activity_name email reg).2 = reg
  ∨ ∃ activity,
      reg !! activity_name = Some activity
      ∧ (email ∉ participants activity)
      ∧ (signup_for_activity activity_name email reg).2
        = <[activity_name := set_participants (participants activity ++ [email]) activity]> reg.
Proof.
  unfold signup_for_activity.
  destruct (reg !! activity_name) as [activity|] eqn:Hkey; [|by left].
  case_decide; [by left|]. right. by exists activity.
Qed.

(** X1: the sign-up returns exactly when the activity exists and the email is
    not yet on its roster; in every other case it raises. *)
Theorem signup_returns_iff (reg : Registry) (activity_name email : string) :
  (∃ confirmation, (signup_for_activity activity_name email reg).1 = Returned confirmation)
  ↔ (∃ activity, reg !! activity_name = Some activity ∧ email ∉ participants activity).
Proof.
  unfold signup_for_activity.
  destruct (reg !! activity_name) as [activity|] eqn:Hkey.
  - case_decide as Hin; simpl.
    + split; [by intros [? [=]]|]. intros (a & [= <-] & Hfresh). done.
    + split; [|by eauto]. intros _. by exists activity.
  - simpl. split; [by intros [? [=]]|by intros (? & [=] & _)].
Qed.

Lemma signup_roster_member (reg : Registry) (activity_name email : string)
    (activity : Activity) :
  reg !! activity_name = Some activity →
  ∃ ps, roster (signup_for_activity activity_name email reg).2 activity_name = Some ps
        ∧ email ∈ ps.
Proof.
  intros Hkey. unfold roster, signup_for_activity. rewrite Hkey.
  case_decide as Hin; simpl.
  - rewrite Hkey. by eexists.
  - rewrite lookup_insert_eq. simpl. eexists. split; [done|].
    apply elem_of_app. right. by apply list_elem_of_singleton.
Qed.

(** X2: whether the sign-up returns or raises the conflict, afterwards the email
    is on the roster of the activity. *)
Theorem signup_ensures_membership (reg : Registry) (activity_name email : string)
    (activity : Activity) :
  reg !! activity_name = Some activity →
  ∃ ps, roster (signup_for_activity activity_name email reg).2 activity_name = Some ps
        ∧ email ∈ ps.
Proof. apply signup_roster_member. Qed.

Lemma signup_ensures_membership_witness :
  ∃ ps, roster (signup_for_activity "Chess Club" "daniel@mergington.edu" activities).2
          "Chess Club" = Some ps
        ∧ "daniel@mergington.edu" ∈ ps.
Proof.
  apply (signup_ensures_membership activities "Chess Club" "daniel@mergington.edu"
           (mkActivity "Learn strategies and compete in chess tournaments"
              "Fridays, 3:30 PM - 5:00 PM" 12
              ["michael@mergington.edu"; "daniel@mergington.edu"])).
  reflexivity.
Defined.

Lemma signup_keeps_details (reg : Registry) (activity_name email k : string) :
  details <$> (signup_for_activity activity_name email reg).2 !! k = details <$> reg !! k.
Proof.
  destruct (signup_registry_cases reg activity_name email)
    as [->|(activity & Hkey & _ & ->)]; [done|].
  destruct (decide (activity_name = k)) as [->|Hne].
  - by rewrite lookup_insert_eq, Hkey.
  - by rewrite lookup_insert_ne.
Qed.

Lemma run_keeps_details (reqs : list Request) (reg : Registry) (k : string) :
  details <$> run reqs reg !! k = details <$> reg !! k.
Proof.
  unfold run. revert reg. induction reqs as [|req reqs IH]; intros reg; simpl; [done|].
  rewrite IH.
  destruct (serve_registry req reg) as [->|(activity_name & email & ->)]; [done|].
  apply signup_keeps_details.
Qed.

Lemma run_keeps_dom (reqs : list Request) (reg : Registry) :
  dom (run reqs reg) = dom reg.
Proof.
  apply set_eq. intros k. rewrite !elem_of_dom.
  pose proof (run_keeps_details reqs reg k) as Hdetails.
  destruct (run reqs reg !! k), (reg !! k); simpl in Hdetails;
    try discriminate; split; intros [? ?]; by eauto.
Qed.

(** X3: no sequence of requests adds or removes an activity, and none changes
    the description, the schedule or the capacity of one. *)
Theorem requests_keep_details (reqs : list Request) (reg : Registry) :
  dom (run reqs reg) = dom reg
  ∧ ∀ k, details <$> run reqs reg !! k = details <$> reg !! k.
Proof. split; [apply run_keeps_dom|apply run_keeps_details]. Qed.

Lemma signup_extends_roster (reg : Registry) (activity_name email k : string)
    (ps : list string) :
  roster reg k = Some ps →
  ∃ ps', roster (signup_for_activity activity_name email reg).2 k = Some ps'
         ∧ ps `prefix_of` ps'.
Proof.
  intros Hk.
  destruct (signup_registry_cases reg activity_name email)
    as [->|(activity & Hkey & _ & ->)]; [by exists ps|].
  unfold roster in *. destruct (decide (activity_name = k)) as [->|Hne].
  - rewrite lookup_insert_eq. simpl. rewrite Hkey in Hk. injection Hk as <-.
    eexists. split; [done|]. by apply prefix_app_r.
  - rewrite lookup_insert_ne by done. by exists ps.
Qed.

Lemma run_extends_roster (reqs : list Request) (reg : Registry) (k : string)
    (ps : list string) :
  roster reg k = Some ps →
  ∃ ps', roster (run reqs reg) k = Some ps' ∧ ps `prefix_of` ps'.
Proof.
  unfold run. revert reg ps.
  induction reqs as [|req reqs IH]; intros reg ps Hk; simpl; [by exists ps|].
  assert (∃ ps1, roster (serve req reg).2 k = Some ps1 ∧ ps `prefix_of` ps1)
    as (ps1 & Hk1 & Hprefix1).
  { destruct (serve_registry req reg) as [->|(activity_name & email & ->)]; [by exists ps|].
    by apply signup_extends_roster. }
  destruct (IH _ _ Hk1) as (ps' & Hk' & Hprefix').
  exists ps'. split; [done|]. by etrans.
Qed.

(** X4: no sequence of requests removes or reorders a participant: the roster
    an activity had before is the beginning of the roster it has after. *)
Theorem requests_extend_rosters (reqs : list Request) (reg : Registry) (k : string)
    (ps : list string) :
  roster reg k = Some ps →
  ∃ ps', roster (run reqs reg) k = Some ps' ∧ ps `prefix_of` ps'.
Proof. apply run_extends_roster. Qed.

Lemma requests_extend_rosters_witness :
  ∃ ps', roster (run [Join "Gym Class" "test1@mergington.edu";
                      Leave "Gym Class" "john@mergington.edu";
                      Join "Gym Class" "test2@mergington.edu"] activities) "Gym Class"
         = Some ps'
         ∧ ["john@mergington.edu"; "olivia@mergington.edu"] `prefix_of` ps'.
Proof.
  apply (requests_extend_rosters _ activities "Gym Class"
           ["john@mergington.edu"; "olivia@mergington.edu"]).
  reflexivity.
Defined.

(** X5: once an email is on the roster of an activity, a sign-up of that email
    for that activity raises the conflict after every sequence of requests:
    nothing the program serves takes a participant off again. *)
Theorem signup_stays_conflict (reqs : list Request) (reg : Registry)
    (activity_name email : string) (ps : list string) :
  roster reg activity_name = Some ps →
  email ∈ ps →
  signup_for_activity activity_name email (run reqs reg)
  = (Raised (mkHTTPException 400 "Student already signed up for this activity"),
     run reqs reg).
Proof.
  intros Hk Hin.
  destruct (run_extends_roster reqs reg activity_name ps Hk) as (ps' & Hk' & Hprefix).
  unfold roster in Hk'. unfold signup_for_activity.
  destruct (run reqs reg !! activity_name) as [activity|]; [|done].
  injection Hk' as ->. case_decide as Hnew; [done|].
  exfalso. apply Hnew. by eapply elem_of_prefix.
Qed.

Lemma signup_stays_conflict_witness :
  let reqs := [Join "Chess Club" "test@mergington.edu";
               Leave "Chess Club" "michael@mergington.edu";
               Join "Art Club" "michael@mergington.edu"] in
  signup_for_activity "Chess Club" "michael@mergington.edu" (run reqs activities)
  = (Raised (mkHTTPException 400 "Student already signed up for this activity"),
     run reqs activities).
Proof.
  intros reqs.
  apply (signup_stays_conflict reqs activities "Chess Club" "michael@mergington.edu"
           ["michael@mergington.edu"; "daniel@mergington.edu"]).
  - reflexivity.
  - apply (bool_decide_unpack _). vm_compute. exact I.
Defined.

(** A sign-up for [A] does not look at the record stored under another
    name [B]. *)
Lemma signup_insert_other (reg : Registry) (A B email : string) (record : Activity) :
  A ≠ B →
  signup_for_activity A email (<[B := record]> reg)
  = ((signup_for_activity A email reg).1, <[B := record]> (signup_for_activity A email reg).2).
Proof.
  intros Hdistinct. unfold signup_for_activity. rewrite lookup_insert_ne by done.
  destruct (reg !! A) as [activity|]; [|done].
  case_decide; [done|]. simpl. f_equal. by apply insert_insert_ne.
Qed.

(** X6: sign-ups for two different activities do not see each other: the outcome
    of each is the same whichever is served first, and so is the registry
    after both. *)
Theorem signups_commute (reg : Registry) (A B email_a email_b : string) :
  A ≠ B →
  (signup_for_activity B email_b (signup_for_activity A email_a reg).2).1
  = (signup_for_activity B email_b reg).1
  ∧ (signup_for_activity A email_a (signup_for_activity B email_b reg).2).1
    = (signup_for_activity A email_a reg).1
  ∧ (signup_for_activity B email_b (signup_for_activity A email_a reg).2).2
    = (signup_for_activity A email_a (signup_for_activity B email_b reg).2).2.
Proof.
  intros Hdistinct. assert (B ≠ A) as Hdistinct' by done.
  destruct (signup_registry_cases reg A email_a) as [Ha|(a & Hka & Hfa & Ha)];
    destruct (signup_registry_cases reg B email_b) as [Hb|(b & Hkb & Hfb & Hb)];
    rewrite ?Ha, ?Hb; rewrite ?signup_insert_other by done; simpl;
    rewrite ?Ha, ?Hb; split_and!; try done.
  by apply insert_insert_ne.
Qed.

Lemma signups_commute_witness :
  let a := "test@mergington.edu" in
  (signup_for_activity "Art Club" a (signup_for_activity "Chess Club" a activities).2).1
  = (signup_for_activity "Art Club" a activities).1
  ∧ (signup_for_activity "Chess Club" a (signup_for_activity "Art Club" a activities).2).1
    = (signup_for_activity "Chess Club" a activities).1
  ∧ (signup_for_activity "Art Club" a (signup_for_activity "Chess Club" a activities).2).2
    = (signup_for_activity "Chess Club" a (signup_for_activity "Art Club" a activities).2).2.
Proof.
  intros a. apply (signups_commute activities "Chess Club" "Art Club" a a).
  apply (bool_decide_unpack _). vm_compute. exact I.
Defined.



Lemma route_SignupForActivity_inv (m : Method) (p : list string) (activity_name : string) :
  route m p = Some (SignupForActivity activity_name) →
  m = POST ∧ p = ["activities"; activity_name; "signup"] ∧ activity_name ≠ "".
Proof.
  destruct m, p as [|a [|b [|c [|d p]]]]; simpl; try done.
  - by case_decide.
  - case_decide as Hr; [|done]. destruct Hr as (-> & Hname & ->). by intros [= ->].
Qed.



(** ** Accounting *)

Lemma headcount_insert (reg : Registry) (k : string) (activity activity' : Activity) :
  reg !! k = Some activity →
  headcount (<[k := activity']> reg) + length (participants activity)
  = headcount reg + length (participants activity').
Proof.
  intros Hkey. unfold headcount.
  rewrite <-(insert_delete_id reg k activity Hkey) at 2.
  rewrite <-(insert_delete_eq reg k activity').
  rewrite !map_fold_insert_L; [lia|intros; lia|apply lookup_delete_eq|intros; lia
                              |apply lookup_delete_eq].
Qed.

Lemma serve_headcount (req : Request) (reg : Registry) :
  headcount (serve req reg).2
  = headcount reg + (if is_confirmation (serve req reg).1 then 1 else 0).
Proof.
  unfold serve.
  destruct (route (method req) (path req)) as [[| |activity_name]|]; simpl; [lia|lia| |lia].
  destruct (email_param req) as [email|]; simpl; [|lia].
  unfold signup_for_activity.
  destruct (reg !! activity_name) as [activity|] eqn:Hkey; simpl; [|lia].
  case_decide; simpl; [lia|].
  pose proof (headcount_insert reg activity_name activity
                (set_participants (participants activity ++ [email]) activity) Hkey) as Hc.
  simpl in Hc. rewrite length_app in Hc. simpl in Hc. lia.
Qed.

(** X9: every confirmation of a sign-up stands for exactly one new roster entry
    and nothing else changes a roster: after a sequence of requests the
    number of roster entries over all activities is the number before plus
    the number of confirmations given. *)
Theorem headcount_counts_confirmations (reqs : list Request) (reg : Registry) :
  headcount (run reqs reg) = headcount reg + confirmations reqs reg.
Proof.
  unfold run. revert reg.
  induction reqs as [|req reqs IH]; intros reg; simpl; [lia|].
  rewrite IH, serve_headcount. lia.
Qed.

(** ** The registries the program can reach *)

Lemma run_duplicate_free (reqs : list Request) (reg : Registry) :
  duplicate_free reg → duplicate_free (run reqs reg).
Proof.
  unfold run. revert reg.
  induction reqs as [|req reqs IH]; intros reg Hinv; simpl; [done|].
  by apply IH, serve_duplicate_free.
Qed.

Lemma seed_lookup (activity_name : string) (activity : Activity) :
  (activity_name, activity) ∈ seed_entries → activities !! activity_name = Some activity.
Proof.
  apply elem_of_list_to_map_1. apply (bool_decide_unpack _). by vm_compute.
Qed.

(** X10: whatever requests have been served since the start of the process, the
    registry holds exactly the activities of the seed data, each with its
    seeded description, schedule and capacity, and with a roster that has no
    duplicates and begins with its seeded participants. *)
Theorem reachable_registry_shape (reqs : list Request) :
  dom (run reqs activities) = list_to_set seed_entries.*1
  ∧ ∀ activity_name activity,
      (activity_name, activity) ∈ seed_entries →
      ∃ ps, run reqs activities !! activity_name = Some (set_participants ps activity)
            ∧ participants activity `prefix_of` ps
            ∧ NoDup ps.
Proof.
  split.
  - rewrite run_keeps_dom. apply dom_list_to_map_L.
  - intros activity_name activity Hseed%seed_lookup.
    destruct (run_extends_roster reqs activities activity_name (participants activity))
      as (ps & Hroster & Hprefix); [by unfold roster; rewrite Hseed|].
    pose proof (run_keeps_details reqs activities activity_name) as Hdetails.
    pose proof (run_duplicate_free reqs activities seed_duplicate_free) as Hinv.
    unfold roster in Hroster.
    destruct (run reqs activities !! activity_name) as [activity'|] eqn:Hkey; [|done].
    rewrite Hseed in Hdetails. simpl in Hdetails, Hroster.
    injection Hroster as <-. injection Hdetails as Hd Hs Hm.
    exists (participants activity'). split_and!; [|done|exact (Hinv _ _ Hkey)].
    f_equal. destruct activity', activity. simpl in *. by subst.
Qed.

Lemma reachable_registry_shape_witness :
  ∃ ps,
    run [Join "Drama Club" "test@mergington.edu"; ListAll;
         Leave "Drama Club" "mia@mergington.edu"] activities !! "Drama Club"
    = Some (mkActivity "Acting, stagecraft, and school productions"
              "Thursdays, 4:00 PM - 6:00 PM" 25 ps)
    ∧ ["mia@mergington.edu"; "ethan@mergington.edu"] `prefix_of` ps
    ∧ NoDup ps.
Proof.
  destruct (reachable_registry_shape
              [Join "Drama Club" "test@mergington.edu"; ListAll;
               Leave "Drama Club" "mia@mergington.edu"]) as [_ Hshape].
  apply (Hshape "Drama Club"
           (mkActivity "Acting, stagecraft, and school productions"
              "Thursdays, 4:00 PM - 6:00 PM" 25
              ["mia@mergington.edu"; "ethan@mergington.edu"])).
  apply list_elem_of_lookup. exists 6. reflexivity.
Defined.

Example headcount_seed : headcount activities = 18.
Proof. vm_compute. reflexivity. Qed.

(** ** The store and the registry it stands for *)

Lemma view_lookup (st : Store) (k : string) :
  view st !! k = load (store_lists st) <$> store_activities st !! k.
Proof. apply lookup_fmap. Qed.

Lemma list_at_insert_eq (lists : list (list string)) (address : nat) (ps : list string) :
  address < length lists → list_at (<[address := ps]> lists) address = ps.
Proof. intros Hrange. unfold list_at. by rewrite list_lookup_insert_eq. Qed.

Lemma list_at_insert_ne (lists : list (list string)) (address other : nat)
    (ps : list string) :
  address ≠ other → list_at (<[address := ps]> lists) other = list_at lists other.
Proof. intros Hne. unfold list_at. by rewrite list_lookup_insert_ne. Qed.

(** A sign-up on the store, seen through [view], is the sign-up on the
    registry, and it keeps the store well formed and unshared. *)
Lemma signup_store_view (st : Store) (activity_name email : string) :
  well_formed st →
  unshared st →
  (signup_for_activity_store activity_name email st).1
  = (signup_for_activity activity_name email (view st)).1
  ∧ view (signup_for_activity_store activity_name email st).2
    = (signup_for_activity activity_name email (view st)).2
  ∧ well_formed (signup_for_activity_store activity_name email st).2
  ∧ unshared (signup_for_activity_store activity_name email st).2.
Proof.
  intros Hwf Hunshared.
  unfold signup_for_activity_store, signup_for_activity. rewrite view_lookup.
  destruct (store_activities st !! activity_name) as [r|] eqn:Hkey; simpl; [|done].
  case_decide as Hin; simpl; [done|].
  pose proof (Hwf _ _ Hkey) as Hrange. simpl in Hrange.
  split_and!; [done| | |done].
  - apply map_eq. intros k. rewrite view_lookup. simpl.
    destruct (decide (activity_name = k)) as [<-|Hne].
    + rewrite lookup_insert_eq, Hkey. simpl. f_equal.
      unfold load, set_participants. simpl. f_equal. by apply list_at_insert_eq.
    + rewrite lookup_insert_ne, view_lookup by done.
      destruct (store_activities st !! k) as [rk|] eqn:Hk; simpl; [|done].
      f_equal. unfold load. f_equal. apply list_at_insert_ne.
      intros Hsame. apply Hne. by eapply Hunshared.
  - intros k rk Hk. simpl. rewrite length_insert. exact (Hwf _ _ Hk).
Qed.

(** X11: the in-place append of [signup_for_activity] behaves as the replacement
    of one record of the registry, as long as every activity has a list
    object of its own: outcome and resulting registry are those of the
    sign-up on the registry the store stands for, and afterwards every
    activity still has a list object of its own. *)
Theorem signup_store_refines (st : Store) (activity_name email : string) :
  well_formed st →
  unshared st →
  (signup_for_activity_store activity_name email st).1
  = (signup_for_activity activity_name email (view st)).1
  ∧ view (signup_for_activity_store activity_name email st).2
    = (signup_for_activity activity_name email (view st)).2
  ∧ well_formed (signup_for_activity_store activity_name email st).2
  ∧ unshared (signup_for_activity_store activity_name email st).2.
Proof. apply signup_store_view. Qed.

Lemma serve_store_view (st : Store) (req : Request) :
  well_formed st →
  unshared st →
  (serve_store req st).1 = (serve req (view st)).1
  ∧ view (serve_store req st).2 = (serve req (view st)).2
  ∧ well_formed (serve_store req st).2
  ∧ unshared (serve_store req st).2.
Proof.
  intros Hwf Hunshared. unfold serve_store, serve.
  destruct (route (method req) (path req)) as [[| |activity_name]|]; simpl; [done|done| |done].
  destruct (email_param req) as [email|]; simpl; [|done].
  destruct (signup_store_view st activity_name email Hwf Hunshared) as (-> & -> & ? & ?).
  done.
Qed.

Lemma run_store_view (reqs : list Request) (st : Store) :
  well_formed st →
  unshared st →
  view (run_store reqs st) = run reqs (view st)
  ∧ well_formed (run_store reqs st)
  ∧ unshared (run_store reqs st).
Proof.
  unfold run_store, run. revert st.
  induction reqs as [|req reqs IH]; intros st Hwf Hunshared; simpl; [done|].
  destruct (serve_store_view st req Hwf Hunshared) as (_ & <- & Hwf' & Hunshared').
  by apply IH.
Qed.

(** X12: when two activities share one list object, a confirmed sign-up for one
    of them puts the email on the roster of the other as well. *)
Theorem shared_list_signup_leaks (st : Store) (name1 name2 email : string)
    (r1 r2 : ActivityRef) :
  well_formed st →
  store_activities st !! name1 = Some r1 →
  store_activities st !! name2 = Some r2 →
  participants_ref r1 = participants_ref r2 →
  email ∉ list_at (store_lists st) (participants_ref r1) →
  ∃ confirmation ps,
    (signup_for_activity_store name1 email st).1 = Returned confirmation
    ∧ roster (view (signup_for_activity_store name1 email st).2) name2 = Some ps
    ∧ email ∈ ps.
Proof.
  intros Hwf Hk1 Hk2 Hsame Hfresh.
  unfold signup_for_activity_store. rewrite Hk1. simpl.
  rewrite decide_False by done. simpl. eexists _, _. split_and!; [done| |].
  - unfold roster. rewrite view_lookup. simpl. rewrite Hk2. simpl. done.
  - rewrite <-Hsame, list_at_insert_eq by exact (Hwf _ _ Hk1).
    apply elem_of_app. right. by apply list_elem_of_singleton.
Qed.

Lemma shared_list_signup_leaks_witness :
  let st :=
    mkStore {[ "A" := mkActivityRef "a" "Mondays" 5 0; "B" := mkActivityRef "b" "Fridays" 5 0 ]}
      [["x@mergington.edu"]] in
  ∃ confirmation ps,
    (signup_for_activity_store "A" "y@mergington.edu" st).1 = Returned confirmation
    ∧ roster (view (signup_for_activity_store "A" "y@mergington.edu" st).2) "B" = Some ps
    ∧ "y@mergington.edu" ∈ ps.
Proof.
  intros st.
  apply (shared_list_signup_leaks st "A" "B" "y@mergington.edu"
           (mkActivityRef "a" "Mondays" 5 0) (mkActivityRef "b" "Fridays" 5 0)).
  - apply (bool_decide_unpack _). vm_compute. exact I.
  - reflexivity.
  - reflexivity.
  - reflexivity.
  - apply (bool_decide_unpack _). vm_compute. exact I.
Defined.

(** ** The store at process start *)

Lemma store_of_entries_ok (entries : list (string * Activity)) :
  well_formed (store_of_entries entries) ∧ unshared (store_of_entries entries).
Proof.
  unfold store_of_entries.
  assert (well_formed (mkStore ∅ []) ∧ unshared (mkStore ∅ [])) as Hstart.
  { split; [apply map_Forall_empty|]. intros k1 k2 r1 r2 Hk1. simpl in Hk1.
    by rewrite lookup_empty in Hk1. }
  revert Hstart. generalize (mkStore ∅ []).
  induction entries as [|[name activity] entries IH]; intros st [Hwf Hunshared]; [done|].
  simpl. apply IH. split.
  - apply map_Forall_insert_2; simpl.
    + rewrite length_app. simpl. lia.
    + intros k r Hk. simpl. rewrite length_app. pose proof (Hwf _ _ Hk). simpl in *. lia.
  - intros k1 k2 r1 r2. simpl. rewrite !lookup_insert.
    repeat case_decide; subst; try done.
    + intros [= <-] Hk2 Hsame. pose proof (Hwf _ _ Hk2). simpl in *. lia.
    + intros Hk1 [= <-] Hsame. pose proof (Hwf _ _ Hk1). simpl in *. lia.
    + apply Hunshared.
Qed.

Lemma seed_store_view : view (store_of_entries seed_entries) = activities.
Proof. vm_compute. reflexivity. Qed.

(** X13: the registry is an exact picture of the running program: the dict
    literal of [app.py] gives every activity a list object of its own, and
    after any sequence of requests the store stands for the registry that
    the same requests give on [activities]. *)
Theorem program_store_refines (reqs : list Request) :
  view (run_store reqs (store_of_entries seed_entries)) = run reqs activities
  ∧ well_formed (run_store reqs (store_of_entries seed_entries))
  ∧ unshared (run_store reqs (store_of_entries seed_entries)).
Proof.
  destruct (store_of_entries_ok seed_entries) as [Hwf Hunshared].
  rewrite <-seed_store_view. by apply run_store_view.
Qed.

Lemma signup_store_refines_witness :
  let st := store_of_entries seed_entries in
  (signup_for_activity_store "Chess Club" "test@mergington.edu" st).1
  = (signup_for_activity "Chess Club" "test@mergington.edu" (view st)).1
  ∧ view (signup_for_activity_store "Chess Club" "test@mergington.edu" st).2
    = (signup_for_activity "Chess Club" "test@mergington.edu" (view st)).2
  ∧ well_formed (signup_for_activity_store "Chess Club" "test@mergington.edu" st).2
  ∧ unshared (signup_for_activity_store "Chess Club" "test@mergington.edu" st).2.
Proof.
  intros st.
  apply (signup_store_refines st "Chess Club" "test@mergington.edu").
  - apply (bool_decide_unpack _). vm_compute. exact I.
  - apply store_of_entries_ok.
Defined.

(** ** The fixture [reset_activities] *)

(** A request does not touch the dict object, creates no list object, and
    writes to no list object other than those the inner dicts refer to. *)
Lemma serve_store_frame (req : Request) (st : Store) :
  store_activities (serve_store req st).2 = store_activities st
  ∧ length (store_lists (serve_store req st).2) = length (store_lists st)
  ∧ ∀ address,
      (∀ k r, store_activities st !! k = Some r → participants_ref r ≠ address) →
      store_lists (serve_store req st).2 !! address = store_lists st !! address.
Proof.
  unfold serve_store.
  destruct (route (method req) (path req)) as [[| |activity_name]|]; simpl; [done|done| |done].
  destruct (email_param req) as [email|]; simpl; [|done].
  unfold signup_for_activity_store.
  destruct (store_activities st !! activity_name) as [r|] eqn:Hkey; simpl; [|done].
  case_decide; simpl; [done|].
  split_and!; [done|by rewrite length_insert|].
  intros address Hother. apply list_lookup_insert_ne. by eapply Hother.
Qed.

Lemma run_store_frame (reqs : list Request) (st : Store) :
  store_activities (run_store reqs st) = store_activities st
  ∧ length (store_lists (run_store reqs st)) = length (store_lists st)
  ∧ ∀ address,
      (∀ k r, store_activities st !! k = Some r → participants_ref r ≠ address) →
      store_lists (run_store reqs st) !! address = store_lists st !! address.
Proof.
  unfold run_store. revert st.
  induction reqs as [|req reqs IH]; intros st; simpl; [done|].
  destruct (serve_store_frame req st) as (Hacts & Hlen & Hframe).
  destruct (IH (serve_store req st).2) as (Hacts' & Hlen' & Hframe').
  split_and!; [congruence|congruence|].
  intros address Hother. rewrite Hframe'; [by apply Hframe|].
  rewrite Hacts. exact Hother.
Qed.

(** What the dict comprehension of the fixture builds: the old list objects
    are left as they are; every key of [activities] gets an inner dict with
    the same plain values and a list object of its own, created after all
    the old ones, that holds the participants at the time of the copy. *)
Lemma copy_activities_spec (st : Store) :
  well_formed st →
  (∃ created, (copy_activities st).2 = store_lists st ++ created)
  ∧ (∀ k, match store_activities st !! k with
          | None => (copy_activities st).1 !! k = None
          | Some r =>
              ∃ address,
                (copy_activities st).1 !! k
                = Some (mkActivityRef (ref_description r) (ref_schedule r)
                          (ref_max_participants r) address)
                ∧ length (store_lists st) ≤ address
                ∧ (copy_activities st).2 !! address
                  = Some (list_at (store_lists st) (participants_ref r))
          end)
  ∧ (∀ k r, (copy_activities st).1 !! k = Some r →
            participants_ref r < length (copy_activities st).2)
  ∧ (∀ k1 k2 r1 r2,
       (copy_activities st).1 !! k1 = Some r1 →
       (copy_activities st).1 !! k2 = Some r2 →
       participants_ref r1 = participants_ref r2 → k1 = k2).
Proof.
  unfold well_formed, copy_activities.
  generalize (store_lists st) as lists0. intros lists0.
  apply (map_fold_weak_ind
    (λ (acc : gmap string ActivityRef * list (list string)) (m : gmap string ActivityRef),
       map_Forall (λ _ r, participants_ref r < length lists0) m →
       (∃ created, acc.2 = lists0 ++ created)
       ∧ (∀ k, match m !! k with
               | None => acc.1 !! k = None
               | Some r =>
                   ∃ address,
                     acc.1 !! k
                     = Some (mkActivityRef (ref_description r) (ref_schedule r)
                               (ref_max_participants r) address)
                     ∧ length lists0 ≤ address
                     ∧ acc.2 !! address = Some (list_at lists0 (participants_ref r))
               end)
       ∧ (∀ k r, acc.1 !! k = Some r → participants_ref r < length acc.2)
       ∧ (∀ k1 k2 r1 r2,
            acc.1 !! k1 = Some r1 → acc.1 !! k2 = Some r2 →
            participants_ref r1 = participants_ref r2 → k1 = k2))).
  - intros _. simpl. split_and!.
    + exists []. by rewrite app_nil_r.
    + intros k. by rewrite !lookup_empty.
    + intros k r. by rewrite lookup_empty.
    + intros k1 k2 r1 r2. by rewrite lookup_empty.
  - intros i x m [orig lists] Hfresh IH Hwf. simpl in *.
    apply map_Forall_insert in Hwf as [Hx Hwf]; [|done].
    destruct (IH Hwf) as ((created & ->) & Hcopies & Hrange & Hdistinct). clear IH.
    assert (list_at (lists0 ++ created) (participants_ref x)
            = list_at lists0 (participants_ref x)) as Hread.
    { unfold list_at. by rewrite lookup_app_l. }
    split_and!.
    + exists (created ++ [list_at (lists0 ++ created) (participants_ref x)]).
      by rewrite app_assoc.
    + intros k. destruct (decide (i = k)) as [<-|Hne].
      * rewrite !lookup_insert_eq. eexists. split_and!; [done| |].
        -- rewrite length_app. lia.
        -- rewrite Hread. by apply list_lookup_middle.
      * rewrite !lookup_insert_ne by done. specialize (Hcopies k).
        destruct (m !! k) as [r|]; [|done].
        destruct Hcopies as (address & Hk & Hge & Hat).
        exists address. split_and!; [done|done|]. by apply lookup_app_l_Some.
    + intros k r. rewrite lookup_insert. case_decide.
      * intros [= <-]. simpl. rewrite !length_app. simpl. lia.
      * intros Hk. pose proof (Hrange _ _ Hk). rewrite length_app. simpl. lia.
    + intros k1 k2 r1 r2. rewrite !lookup_insert.
      repeat case_decide; subst; try done.
      * intros [= <-] Hk2 Hsame. pose proof (Hrange _ _ Hk2). simpl in *. lia.
      * intros Hk1 [= <-] Hsame. pose proof (Hrange _ _ Hk1). simpl in *. lia.
      * apply Hdistinct.
Qed.

(** X14: test isolation: whatever requests a test sends between the set-up and
    the tear-down of the fixture, after the tear-down [activities] stands
    for the registry it stood for before the set-up; and every activity then
    has a list object of its own, even where two shared one before. *)
Theorem reset_activities_restores (test : list Request) (st : Store) :
  well_formed st →
  view (reset_activities test st) = view st
  ∧ well_formed (reset_activities test st)
  ∧ unshared (reset_activities test st).
Proof.
  intros Hwf.
  destruct (copy_activities_spec st Hwf) as ((created & Hlists) & Hcopies & Hrange & Hdistinct).
  destruct (run_store_frame test (mkStore (store_activities st) (copy_activities st).2))
    as (_ & Hlen & Hframe). simpl in Hlen, Hframe.
  unfold reset_activities, dict_update, dict_clear.
  rewrite (right_id_L ∅ (∪)).
  split_and!.
  - apply map_eq. intros k. rewrite !view_lookup. simpl.
    specialize (Hcopies k).
    destruct (store_activities st !! k) as [r|] eqn:Hk; [|by rewrite Hcopies].
    destruct Hcopies as (address & -> & Hge & Hat). simpl. f_equal.
    unfold load. simpl. f_equal. unfold list_at at 1.
    rewrite Hframe, Hat; [done|].
    intros k' r' Hk'. pose proof (Hwf _ _ Hk'). simpl in *. lia.
  - intros k r Hk. simpl in *. rewrite Hlen. by eapply Hrange.
  - exact Hdistinct.
Qed.

Lemma reset_activities_restores_witness :
  let st := store_of_entries seed_entries in
  let test := [Join "Chess Club" "test@mergington.edu";
               Join "Chess Club" "test@mergington.edu";
               Join "Art Club" "integrity_test@mergington.edu"] in
  view (reset_activities test st) = view st
  ∧ well_formed (reset_activities test st)
  ∧ unshared (reset_activities test st).
Proof.
  intros st test. apply (reset_activities_restores test st).
  apply (bool_decide_unpack _). vm_compute. exact I.
Defined.

Example reset_activities_chess :
  roster (view (reset_activities [Join "Chess Club" "test@mergington.edu"]
                  (store_of_entries seed_entries))) "Chess Club"
  = Some ["michael@mergington.edu"; "daniel@mergington.edu"].
Proof. vm_compute. reflexivity. Qed.

Example test_body_chess :
  roster (view (run_store [Join "Chess Club" "test@mergington.edu"]
                  (store_of_entries seed_entries))) "Chess Club"
  = Some ["michael@mergington.edu"; "daniel@mergington.edu"; "test@mergington.edu"].
Proof. vm_compute. reflexivity. Qed.

(** ** Reading after writing *)

(** X15: a confirmed sign-up shows in every later listing: after any further
    requests, [GET /activities] returns a registry in which the email is on
    the roster of the activity. *)
Theorem listing_shows_confirmed_signup (reg : Registry) (activity_name email : string)
    (confirmation : Message) (later : list Request) :
  (serve (Join activity_name email) reg).1 = Some (Returned (MessageBody confirmation)) →
  ∃ body ps,
    (serve ListAll (run later (serve (Join activity_name email) reg).2)).1
    = Some (Returned (ActivitiesBody body))
    ∧ roster body activity_name = Some ps
    ∧ email ∈ ps.
Proof.
  intros Hconfirmed. rewrite serve_ListAll. simpl.
  assert (∃ ps0, roster (serve (Join activity_name email) reg).2 activity_name = Some ps0
                 ∧ email ∈ ps0) as (ps0 & Hroster0 & Hin0).
  { revert Hconfirmed. unfold serve, Join. simpl method. simpl path. simpl email_param.
    destruct (route POST ["activities"; activity_name; "signup"]) as [[| |name]|] eqn:Hroute;
      simpl; try done.
    apply route_SignupForActivity_inv in Hroute as (_ & [= <-] & _).
    destruct (reg !! activity_name) as [activity|] eqn:Hkey.
    - intros _. by eapply signup_roster_member.
    - unfold signup_for_activity. by rewrite Hkey. }
  destruct (run_extends_roster later _ activity_name ps0 Hroster0) as (ps & Hroster & Hprefix).
  exists (run later (serve (Join activity_name email) reg).2), ps.
  split_and!; [done|done|]. by eapply elem_of_prefix.
Qed.

Lemma listing_shows_confirmed_signup_witness :
  ∃ body ps,
    (serve ListAll
       (run [Join "Chess Club" "other@mergington.edu";
             Leave "Chess Club" "test@mergington.edu"]
          (serve (Join "Chess Club" "test@mergington.edu") activities).2)).1
    = Some (Returned (ActivitiesBody body))
    ∧ roster body "Chess Club" = Some ps
    ∧ "test@mergington.edu" ∈ ps.
Proof.
  apply (listing_shows_confirmed_signup activities "Chess Club" "test@mergington.edu"
           (mkMessage "Signed up test@mergington.edu for Chess Club")).
  vm_compute. reflexivity.
Defined.

(** X16: the sign-up is idempotent on the registry: serving the same sign-up
    a second time changes nothing more, whether the first one returned or
    raised. *)
Theorem signup_idempotent (reg : Registry) (activity_name email : string) :
  (signup_for_activity activity_name email
     (signup_for_activity activity_name email reg).2).2
  = (signup_for_activity activity_name email reg).2.
Proof.
  destruct (signup_registry_cases reg activity_name email)
    as [Hsame|(activity & Hkey & Hfresh & Hchanged)].
  - by rewrite !Hsame.
  - rewrite Hchanged. unfold signup_for_activity at 1. rewrite lookup_insert_eq. simpl.
    rewrite decide_True; [done|]. apply elem_of_app. right. by apply list_elem_of_singleton.
Qed.
